(** * Dispatching a [big.matrix] external pointer to Armadillo views

    A shallow embedding of
    [src/2014-07-25-using-bigmemory-with-rcpparmadillo.cpp]: the exported
    wrapper [someArmaFunction(SEXP)] reads the type tag of a [BigMatrix],
    wraps its memory in an [arma::Mat<T>] without copying and forwards it to
    the template [someArmaFunction<T>].

    The program state is an explicit store (external buffers and the
    [BigMatrix] descriptors behind external pointers).  C++ exceptions are
    outcomes that keep the state reached so far.  Calls of the template are
    recorded in a trace that the template's body cannot touch. *)

From Stdlib Require Import ZArith Lia Ascii.
From stdpp Require Import base option list gmap strings pretty.

Local Open Scope Z_scope.

(** ** Data *)

(** Raw addresses, opaque R handles and the cells of a numeric buffer.
    A buffer is addressed by the base address of its allocation and holds one
    cell per element (the element's bit pattern). *)
Abbreviation addr := Z.
Abbreviation SEXP := Z.
Abbreviation cell := Z.

(** The template arguments the wrapper instantiates (lines 48, 52, 56, 60). *)
Inductive elem_type : Type := Tchar | Tshort | Tint | Tdouble.

#[global] Instance elem_type_eq_dec : EqDecision elem_type.
Proof. solve_decision. Defined.

(** The part of bigmemory's [BigMatrix] the wrapper reads: [matrix_type()],
    [matrix()], [nrow()] and [ncol()].  The class is declared in bigmemory's
    headers; [matrix_type()] returns a C [int], the counts are non-negative
    and are carried here as unbounded naturals. *)
Record BigMatrix : Type := mkBigMatrix {
  matrix_type : Z;
  matrix : addr;
  nrow : N;
  ncol : N
}.

#[global] Instance BigMatrix_eq_dec : EqDecision BigMatrix.
Proof. solve_decision. Defined.

(** The range of a C [int] and the conversion to [unsigned int] performed by
    the initialisation [unsigned int type = xpMat->matrix_type()] (line 46). *)
Definition INT_MIN : Z := - 2 ^ 31.
Definition INT_MAX : Z := 2 ^ 31 - 1.
Definition is_int (z : Z) : Prop := INT_MIN <= z <= INT_MAX.
Definition to_unsigned_int (z : Z) : Z := Z.modulo z (2 ^ 32).

(** An [arma::Mat<T>] as far as the wrapper determines it: where its elements
    live, its shape, and the [strict] flag of its constructor.  The element
    type is a phantom index, as in C++. *)
Record Mat (T : elem_type) : Type := mkMat {
  mem : addr;
  n_rows : N;
  n_cols : N;
  strict : bool
}.
Arguments mkMat {T} _ _ _ _.
Arguments mem {T} _.
Arguments n_rows {T} _.
Arguments n_cols {T} _.
Arguments strict {T} _.

Definition n_elem {T} (m : Mat T) : N := (n_rows m * n_cols m)%N.

(** ** State, exceptions and the trace of template calls *)

Record store : Type := mkStore {
  heap : gmap Z (list Z);
  xptrs : gmap Z BigMatrix
}.

Inductive exn : Type :=
| Rcpp_exception (msg : string)
| not_compatible (msg : string).

Inductive outcome (A : Type) : Type :=
| Normal (a : A)
| Threw (e : exn).
Arguments Normal {A} _.
Arguments Threw {A} _.

(** One call of [someArmaFunction<T>] with the view it received. *)
Inductive event : Type :=
| Invoke (T : elem_type) (aBigMat : Mat T).

Definition event_type (e : event) : elem_type :=
  match e with Invoke T _ => T end.
Definition event_mem (e : event) : addr :=
  match e with Invoke _ m => mem m end.
Definition event_rows (e : event) : N :=
  match e with Invoke _ m => n_rows m end.
Definition event_cols (e : event) : N :=
  match e with Invoke _ m => n_cols m end.
Definition event_strict (e : event) : bool :=
  match e with Invoke _ m => strict m end.

Record world : Type := mkWorld {
  st : store;
  trace : list event
}.

Definition M (A : Type) : Type := world -> outcome A * world.

Definition ret {A} (a : A) : M A := fun w => (Normal a, w).

Definition bind {A B} (c : M A) (k : A -> M B) : M B :=
  fun w =>
    match c w with
    | (Normal a, w') => k a w'
    | (Threw e, w') => (Threw e, w')
    end.

Definition throw {A} (e : exn) : M A := fun w => (Threw e, w).

Definition emit (e : event) : M unit :=
  fun w => (Normal tt, mkWorld (st w) (trace w ++ [e])).

(** Code that sees the store but not the trace. *)
Definition on_store {A} (f : store -> outcome A * store) : M A :=
  fun w => let '(o, s) := f (st w) in (o, mkWorld s (trace w)).

Declare Scope cxx_scope.
Delimit Scope cxx_scope with cxx.
Notation "x <- c ;; k" := (bind c (fun x => k))
  (at level 100, c at next level, right associativity) : cxx_scope.
Notation "c ;;; k" := (bind c (fun _ => k))
  (at level 100, right associativity) : cxx_scope.

(** ** Library operations used by the wrapper *)

(** The casts [(char * )], [(short * )], [(int * )] and [(double * )] of the
    [void * ] that [matrix()] returns: the address is kept. *)
Definition ptr_cast (T : elem_type) (p : addr) : addr := p.

(** [XPtr<BigMatrix> xpMat(pBigMat)] followed by [xpMat->...] (Rcpp, outside
    the repository): the handle is resolved to the descriptor it points to.
    Rcpp rejects a handle that is not a live external pointer. *)
Definition XPtr (pBigMat : SEXP) : M BigMatrix :=
  fun w =>
    match xptrs (st w) !! pBigMat with
    | Some d => (Normal d, w)
    | None => (Threw (not_compatible "Expecting an external pointer"), w)
    end.

(** Armadillo's constructor from auxiliary memory (outside the repository),
    [Mat(aux_mem, n_rows, n_cols, copy_aux_mem, strict)].  With
    [copy_aux_mem] the matrix allocates its own block and copies the
    elements; otherwise it uses [aux_mem] itself (lines 38-40 of the source:
    "with copy_aux_mem set to false to effectively cast this memory"). *)
Definition Mat_aux (T : elem_type) (aux_mem : addr) (rows cols : N)
    (copy_aux_mem strict_ : bool) : M (Mat T) :=
  if copy_aux_mem then
    on_store (fun s =>
      let p := fresh (dom (heap s)) in
      let src := default [] (heap s !! aux_mem) in
      let blk := take (N.to_nat (rows * cols)) src in
      (Normal (mkMat p rows cols false),
       mkStore (<[p := blk]> (heap s)) (xptrs s)))
  else
    ret (mkMat aux_mem rows cols strict_).

(** Modelled from the spec: the default of the constructor's last parameter,
    declared in Armadillo's headers, which the repository does not contain.
    The wrapper passes four arguments, so the fifth takes this default; the
    Typed View of the specification has the flag false (lines 42-44 of the
    source name [strict=true] as the option one would have to ask for). *)
Definition strict_default : bool := false.

(** Modelled from the spec: Armadillo's unchecked element access
    [Mat<T>::at(row, col)], which is not part of the repository.  The element
    at (row, col) of a matrix with [n_rows] rows is the cell at linear offset
    [col * n_rows + row] of its memory. *)
Definition Mat_at {T} (s : store) (m : Mat T) (row col : N) : option cell :=
  buf ← heap s !! mem m;
  buf !! N.to_nat (col * n_rows m + row).

(** Every element of the view lies inside the buffer it points to; a view
    without elements needs no buffer. *)
Definition Mat_addressable {T} (s : store) (m : Mat T) : bool :=
  match heap s !! mem m with
  | Some buf => bool_decide (N.to_nat (n_elem m) ≤ length buf)%nat
  | None => bool_decide (n_elem m = 0%N)
  end.

(** ** The program *)

Section Dispatch.

(** The body of the template (line 19: "Do some linear algebra with
    RcppArmadillo").  It receives the view by const reference and may use
    the store. *)
Variable body : forall T : elem_type, Mat T -> store -> outcome unit * store.

(** [template <typename T> void someArmaFunction(const arma::Mat<T>&)]
    (lines 18-20), with the call recorded. *)
Definition someArmaFunction_T (T : elem_type) (aBigMat : Mat T) : M unit :=
  (emit (Invoke T aBigMat) ;;;
   on_store (body T aBigMat))%cxx.

(** [void someArmaFunction(SEXP pBigMat)] (lines 28-66).  The source names
    the resolved pointer [xpMat] at lines 29 and 46 and [xpDat] at lines
    49-61; nothing else is declared under either name, so both denote the
    pointer built from [pBigMat]. *)
Definition someArmaFunction (pBigMat : SEXP) : M unit :=
  (xpMat <- XPtr pBigMat ;;
   let xpDat := xpMat in
   let type := to_unsigned_int (matrix_type xpMat) in
   if type =? 1 then
     aBigMat <- Mat_aux Tchar (ptr_cast Tchar (matrix xpDat))
                  (nrow xpDat) (ncol xpDat) false strict_default ;;
     someArmaFunction_T Tchar aBigMat
   else if type =? 2 then
     aBigMat <- Mat_aux Tshort (ptr_cast Tshort (matrix xpDat))
                  (nrow xpDat) (ncol xpDat) false strict_default ;;
     someArmaFunction_T Tshort aBigMat
   else if type =? 4 then
     aBigMat <- Mat_aux Tint (ptr_cast Tint (matrix xpDat))
                  (nrow xpDat) (ncol xpDat) false strict_default ;;
     someArmaFunction_T Tint aBigMat
   else if type =? 8 then
     aBigMat <- Mat_aux Tdouble (ptr_cast Tdouble (matrix xpDat))
                  (nrow xpDat) (ncol xpDat) false strict_default ;;
     someArmaFunction_T Tdouble aBigMat
   else
     throw (Rcpp_exception "Undefined type for provided big.matrix"))%cxx.

End Dispatch.

(** The body as the source has it: empty. *)
Definition empty_body (T : elem_type) (aBigMat : Mat T) (s : store)
    : outcome unit * store :=
  (Normal tt, s).

(** The R chunk at the end of the source:
    [M <- as.big.matrix(matrix(1:6, nrow=2)); someArmaFunction(M@address)].
    An integer matrix has type tag 4; its six cells are stored column by
    column. *)
Definition M_address : SEXP := 1.
Definition M_buffer : addr := 4096.
Definition M_desc : BigMatrix := mkBigMatrix 4 M_buffer 2 3.
Definition M_store : store :=
  mkStore {[ M_buffer := [1; 2; 3; 4; 5; 6] ]} {[ M_address := M_desc ]}.
Definition M_world : world := mkWorld M_store [].

(** A descriptor whose tag is outside the table, and one more with another
    such tag, behind the handles 1 and 2 of one store. *)
Definition odd_desc : BigMatrix := mkBigMatrix 3 M_buffer 2 3.
Definition neg_desc : BigMatrix := mkBigMatrix (-1) M_buffer 2 3.
Definition odd_world : world :=
  mkWorld (mkStore {[ M_buffer := [1; 2; 3; 4; 5; 6] ]}
                   {[ 1 := odd_desc; 2 := neg_desc ]}) [].

(** Another integer matrix, elsewhere and of another shape. *)
Definition wide_desc : BigMatrix := mkBigMatrix 4 8192 1 4.
Definition wide_world : world :=
  mkWorld (mkStore {[ 8192 := [7; 7; 7; 7] ]} {[ 5 := wide_desc ]})
          [Invoke Tchar (mkMat 0 0 0 false)].

(** A descriptor without rows. *)
Definition empty_desc : BigMatrix := mkBigMatrix 8 0 0 5.
Definition empty_world : world :=
  mkWorld (mkStore ∅ {[ 1 := empty_desc ]}) [].

(** ** The vocabulary of the specification *)

(** The type-tag table of the specification, on the tag as a number. *)
Definition supported_tag (t : Z) : Prop := t = 1 \/ t = 2 \/ t = 4 \/ t = 8.

Definition tag_table (t : Z) : option elem_type :=
  if t =? 1 then Some Tchar
  else if t =? 2 then Some Tshort
  else if t =? 4 then Some Tint
  else if t =? 8 then Some Tdouble
  else None.

(** Storage of the four C++ types on the platforms bigmemory targets (plain
    [char] signed, [short] of two bytes, [int] of four, IEEE [double]). *)
Inductive storage : Type := Int8 | Int16 | Int32 | Float64.

Definition storage_of (T : elem_type) : storage :=
  match T with
  | Tchar => Int8
  | Tshort => Int16
  | Tint => Int32
  | Tdouble => Float64
  end.

(** The Typed View of the specification for a descriptor: its address and
    shape, not resizable. *)
Definition typed_view (T : elem_type) (d : BigMatrix) : Mat T :=
  mkMat (matrix d) (nrow d) (ncol d) false.

(** Number of template calls recorded so far. *)
Definition invocations (w : world) : nat := length (trace w).

(** Whether [p] occurs in [s] as a contiguous substring, and whether a message
    shows a tag in decimal. *)
Fixpoint is_infix (p s : string) : bool :=
  String.prefix p s ||
  match s with
  | EmptyString => false
  | String _ s' => is_infix p s'
  end.

Definition mentions_tag (msg : string) (t : Z) : bool :=
  is_infix (pretty t) msg.

Fixpoint has_char (c : ascii) (s : string) : bool :=
  match s with
  | EmptyString => false
  | String a s' => Ascii.eqb c a || has_char c s'
  end.

(** ** Callers and collaborators of the wrapper *)

(** A template body that fails, for linear algebra that throws. *)
Definition throwing_body (T : elem_type) (aBigMat : Mat T) (s : store)
    : outcome unit * store :=
  (Threw (Rcpp_exception "matrix is singular"), s).

(** The world after [n] calls of the wrapper on one handle, issued one after
    the other as the R chunk issues its one call. *)
Definition dispatch_n
    (body : forall T : elem_type, Mat T -> store -> outcome unit * store)
    (h : SEXP) (n : nat) (w : world) : world :=
  Nat.iter n (fun w' => (someArmaFunction body h w').2) w.

(** The owner of a buffer stores [x] into its cell [i]. *)
Definition poke (s : store) (p : addr) (i : nat) (x : cell) : store :=
  mkStore (alter (fun buf => <[i := x]> buf) p (heap s)) (xptrs s).

(** Number of cells allocated at an address, none if nothing is. *)
Definition buffer_cells (s : store) (p : addr) : nat :=
  length (default [] (heap s !! p)).

(** A descriptor that declares 3 x 3 doubles over the six cells of the R
    chunk's buffer. *)
Definition short_desc : BigMatrix := mkBigMatrix 8 M_buffer 3 3.
Definition short_world : world :=
  mkWorld (mkStore {[ M_buffer := [1; 2; 3; 4; 5; 6] ]}
                   {[ 1 := short_desc ]}) [].

(** ** Basic facts *)

Lemma to_unsigned_int_small (z : Z) :
  0 <= z < 2 ^ 32 -> to_unsigned_int z = z.
Proof. intros Hz. unfold to_unsigned_int. now apply Z.mod_small. Qed.

Lemma to_unsigned_int_negative (z : Z) :
  INT_MIN <= z < 0 -> to_unsigned_int z = z + 2 ^ 32.
Proof.
  unfold INT_MIN, to_unsigned_int. intros Hz.
  symmetry. apply (Z.mod_unique z (2 ^ 32) (-1)); lia.
Qed.

(** Beyond the range of [int] the conversion would wrap onto the table;
    [matrix_type()] cannot return such a value. *)
Example to_unsigned_int_wraps : to_unsigned_int (2 ^ 32 + 1) = 1.
Proof. reflexivity. Qed.

(** Within the range of [int] the conversion of line 46 neither creates nor
    hides a table entry. *)
Lemma tag_table_unsigned (t : Z) :
  is_int t -> tag_table (to_unsigned_int t) = tag_table t.
Proof.
  unfold is_int, INT_MIN, INT_MAX. intros Ht.
  destruct (Z_lt_le_dec t 0) as [Hneg | Hpos].
  - rewrite to_unsigned_int_negative by (unfold INT_MIN; lia).
    unfold tag_table.
    repeat match goal with
           | |- context [?a =? ?b] => destruct (Z.eqb_spec a b); try lia
           end.
    reflexivity.
  - rewrite to_unsigned_int_small by lia. reflexivity.
Qed.

Lemma tag_table_supported (t : Z) :
  supported_tag t <-> is_Some (tag_table t).
Proof.
  unfold supported_tag, tag_table. split.
  - intros [-> | [-> | [-> | ->]]]; simpl; eauto.
  - intros [T HT].
    repeat match type of HT with
           | context [?a =? ?b] => destruct (Z.eqb_spec a b); [lia |]
           end.
    discriminate.
Qed.

Lemma tag_table_unsupported (t : Z) :
  ~ supported_tag t -> tag_table t = None.
Proof.
  intros Hn. destruct (tag_table t) eqn:E; [| reflexivity].
  exfalso. apply Hn, tag_table_supported. eauto.
Qed.

Lemma supported_tag_is_int (t : Z) : supported_tag t -> is_int t.
Proof. unfold supported_tag, is_int, INT_MIN, INT_MAX. lia. Qed.

(** A decimal numeral starts with a digit or a minus sign, and the text of
    line 64 has neither. *)
Lemma is_infix_head (c : ascii) (p s : string) :
  is_infix (String c p) s = true -> has_char c s = true.
Proof.
  induction s as [| a s IH]; simpl.
  - discriminate.
  - intros H. apply orb_true_iff in H as [H | H].
    + destruct (ascii_dec c a) as [-> | Hne]; [| discriminate].
      now rewrite Ascii.eqb_refl.
    + rewrite (IH H). apply orb_true_r.
Qed.

Lemma pretty_N_char_digit (x : N) :
  has_char (pretty_N_char x) "0123456789" = true.
Proof. unfold pretty_N_char. repeat case_match; reflexivity. Qed.

Lemma pretty_N_go_head (x : N) (s : string) :
  (0 < x)%N ->
  exists (c : ascii) (r : string),
    pretty_N_go x s = String c r /\ has_char c "0123456789" = true.
Proof.
  revert s. induction (N.lt_wf_0 x) as [x _ IH]. intros s Hx.
  rewrite pretty_N_go_step by exact Hx.
  destruct (N.eq_dec (x `div` 10)%N 0%N) as [E | E].
  - rewrite E, pretty_N_go_0. eauto using pretty_N_char_digit.
  - apply IH; [apply N.div_lt; lia | now apply N.neq_0_lt_0].
Qed.

Lemma pretty_Z_head (t : Z) :
  exists (c : ascii) (r : string),
    pretty t = String c r /\ has_char c "0123456789-" = true.
Proof.
  destruct t as [| p | p]; unfold pretty, pretty_Z.
  - exists "0"%char, EmptyString. split; reflexivity.
  - unfold pretty, pretty_positive, pretty, pretty_N.
    destruct (decide (N.pos p = 0%N)) as [E | _]; [discriminate |].
    destruct (pretty_N_go_head (N.pos p) EmptyString) as (c & r & -> & Hc); [lia |].
    exists c, r. split; [reflexivity |].
    simpl in Hc |- *.
    repeat (apply orb_true_iff in Hc as [Hc | Hc];
            [rewrite Hc; rewrite ?orb_true_r; reflexivity |]).
    discriminate.
  - exists "-"%char. eexists. split; reflexivity.
Qed.

Lemma message_mentions_no_tag (t : Z) :
  mentions_tag "Undefined type for provided big.matrix" t = false.
Proof.
  unfold mentions_tag.
  destruct (pretty_Z_head t) as (c & r & -> & Hc).
  destruct (is_infix _ _) eqn:E; [| reflexivity].
  apply is_infix_head in E.
  simpl in Hc.
  repeat (apply orb_true_iff in Hc as [Hc | Hc];
          [apply Ascii.eqb_eq in Hc; subst c; discriminate E |]).
  discriminate.
Qed.

Section DispatchFacts.

Variable body : forall T : elem_type, Mat T -> store -> outcome unit * store.

(** What one call of the template does to a world. *)
Lemma someArmaFunction_T_run (T : elem_type) (v : Mat T) (w : world) :
  someArmaFunction_T body T v w =
  ((body T v (st w)).1,
   mkWorld (body T v (st w)).2 (trace w ++ [Invoke T v])).
Proof.
  unfold someArmaFunction_T, bind, emit, on_store. simpl.
  destruct (body T v (st w)) as [[u | e] s]; [destruct u |]; reflexivity.
Qed.

(** The wrapper, once the handle is resolved, is the table lookup followed
    by one template call on the typed view, or the exception. *)
Lemma someArmaFunction_resolved (h : SEXP) (w : world) (d : BigMatrix) :
  xptrs (st w) !! h = Some d ->
  someArmaFunction body h w =
  match tag_table (to_unsigned_int (matrix_type d)) with
  | Some T => someArmaFunction_T body T (typed_view T d) w
  | None =>
      (Threw (Rcpp_exception "Undefined type for provided big.matrix"), w)
  end.
Proof.
  intros Hd. unfold someArmaFunction, bind, XPtr at 1. rewrite Hd.
  unfold tag_table, strict_default, typed_view, ptr_cast, Mat_aux, ret, throw.
  repeat match goal with
         | |- context [?a =? ?b] => destruct (a =? b)
         end; reflexivity.
Qed.

Lemma someArmaFunction_unresolved (h : SEXP) (w : world) :
  xptrs (st w) !! h = None ->
  someArmaFunction body h w =
  (Threw (not_compatible "Expecting an external pointer"), w).
Proof.
  intros Hd. unfold someArmaFunction, bind, XPtr at 1. rewrite Hd. reflexivity.
Qed.

Lemma someArmaFunction_supported (h : SEXP) (w : world) (d : BigMatrix) :
  xptrs (st w) !! h = Some d ->
  supported_tag (matrix_type d) ->
  exists T : elem_type,
    tag_table (matrix_type d) = Some T /\
    someArmaFunction body h w = someArmaFunction_T body T (typed_view T d) w.
Proof.
  intros Hd Hs.
  destruct (proj1 (tag_table_supported _) Hs) as [T HT].
  exists T. split; [exact HT |].
  rewrite (someArmaFunction_resolved h w d Hd).
  rewrite tag_table_unsigned by now apply supported_tag_is_int.
  now rewrite HT.
Qed.

Lemma someArmaFunction_unsupported (h : SEXP) (w : world) (d : BigMatrix) :
  xptrs (st w) !! h = Some d ->
  is_int (matrix_type d) ->
  ~ supported_tag (matrix_type d) ->
  someArmaFunction body h w =
  (Threw (Rcpp_exception "Undefined type for provided big.matrix"), w).
Proof.
  intros Hd Hi Hn.
  rewrite (someArmaFunction_resolved h w d Hd).
  rewrite tag_table_unsigned by exact Hi.
  now rewrite tag_table_unsupported.
Qed.

End DispatchFacts.

(** With [copy_aux_mem] the constructor would hand out a block that was not
    in the heap before, so the view would not be at the buffer's address. *)
Lemma Mat_aux_copy_allocates (T : elem_type) (p : addr) (r c : N) (b : bool)
    (w : world) (buf : list cell) :
  heap (st w) !! p = Some buf ->
  exists v : Mat T,
    (Mat_aux T p r c true b w).1 = Normal v /\
    mem v <> p /\
    heap (st (Mat_aux T p r c true b w).2) !! mem v
      = Some (take (N.to_nat (r * c)) buf).
Proof.
  intros Hp. unfold Mat_aux, on_store. simpl.
  eexists. split; [reflexivity |]. simpl. split.
  - intros E.
    pose proof (is_fresh (dom (heap (st w)))) as Hf.
    apply Hf. rewrite E. apply elem_of_dom. eauto.
  - rewrite lookup_insert_eq, Hp. reflexivity.
Qed.

(** ** Dispatch on a supported tag *)

(** C1: for a handle whose type tag is 1, 2, 4 or 8 the wrapper selects the
    element type by exact match on the tag (1: char, 8-bit signed; 2: short,
    16-bit signed; 4: int, 32-bit signed; 8: double, 64-bit float) and calls
    the template exactly once, instantiated at that type: the run is that
    one call, the trace grows by exactly one entry, and no other type fits. *)
Theorem C1_dispatch_selects_by_tag
    (body : forall T : elem_type, Mat T -> store -> outcome unit * store)
    (h : SEXP) (w : world) (d : BigMatrix) :
  xptrs (st w) !! h = Some d ->
  supported_tag (matrix_type d) ->
  exists (T : elem_type) (v : Mat T),
    (matrix_type d, T) ∈ [(1, Tchar); (2, Tshort); (4, Tint); (8, Tdouble)] /\
    (matrix_type d, storage_of T)
      ∈ [(1, Int8); (2, Int16); (4, Int32); (8, Float64)] /\
    someArmaFunction body h w = someArmaFunction_T body T v w /\
    trace (someArmaFunction body h w).2 = trace w ++ [Invoke T v] /\
    invocations (someArmaFunction body h w).2 = S (invocations w) /\
    (forall (T' : elem_type) (v' : Mat T'),
        trace (someArmaFunction body h w).2 = trace w ++ [Invoke T' v'] ->
        T' = T).
Proof.
  intros Hd Hs.
  destruct (someArmaFunction_supported body h w d Hd Hs) as (T & HT & Hrun).
  exists T, (typed_view T d).
  assert (Htr : trace (someArmaFunction body h w).2
                = trace w ++ [Invoke T (typed_view T d)]).
  { rewrite Hrun, someArmaFunction_T_run. reflexivity. }
  repeat split.
  - unfold supported_tag in Hs. unfold tag_table in HT.
    destruct Hs as [E | [E | [E | E]]]; rewrite E in HT |- *;
      simpl in HT; injection HT as <-; set_solver.
  - unfold supported_tag in Hs. unfold tag_table in HT.
    destruct Hs as [E | [E | [E | E]]]; rewrite E in HT |- *;
      simpl in HT; injection HT as <-; simpl; set_solver.
  - exact Hrun.
  - exact Htr.
  - unfold invocations. rewrite Htr, length_app. simpl. lia.
  - intros T' v' Htr'. rewrite Htr in Htr'.
    apply app_inv_head in Htr'.
    injection Htr' as E _. now symmetry.
Qed.

Lemma C1_witness :
  exists (T : elem_type) (v : Mat T),
    (matrix_type M_desc, T)
      ∈ [(1, Tchar); (2, Tshort); (4, Tint); (8, Tdouble)] /\
    (matrix_type M_desc, storage_of T)
      ∈ [(1, Int8); (2, Int16); (4, Int32); (8, Float64)] /\
    someArmaFunction empty_body M_address M_world
      = someArmaFunction_T empty_body T v M_world /\
    trace (someArmaFunction empty_body M_address M_world).2
      = trace M_world ++ [Invoke T v] /\
    invocations (someArmaFunction empty_body M_address M_world).2
      = S (invocations M_world) /\
    (forall (T' : elem_type) (v' : Mat T'),
        trace (someArmaFunction empty_body M_address M_world).2
          = trace M_world ++ [Invoke T' v'] ->
        T' = T).
Proof.
  apply (C1_dispatch_selects_by_tag empty_body M_address M_world M_desc).
  - reflexivity.
  - unfold supported_tag. simpl. lia.
Defined.

(** ** Dispatch on an unsupported tag *)

(** C2: for a handle whose type tag is none of 1, 2, 4, 8 the wrapper throws
    the exception of line 64 and leaves the world as it found it: nothing is
    added to the trace of template calls, no type is chosen by default. *)
Theorem C2_unsupported_tag_throws
    (body : forall T : elem_type, Mat T -> store -> outcome unit * store)
    (h : SEXP) (w : world) (d : BigMatrix) :
  xptrs (st w) !! h = Some d ->
  is_int (matrix_type d) ->
  ~ supported_tag (matrix_type d) ->
  someArmaFunction body h w
    = (Threw (Rcpp_exception "Undefined type for provided big.matrix"), w) /\
  trace (someArmaFunction body h w).2 = trace w /\
  invocations (someArmaFunction body h w).2 = invocations w.
Proof.
  intros Hd Hi Hn.
  rewrite (someArmaFunction_unsupported body h w d Hd Hi Hn).
  repeat split.
Qed.

Lemma C2_witness :
  someArmaFunction empty_body 2 odd_world
    = (Threw (Rcpp_exception "Undefined type for provided big.matrix"),
       odd_world) /\
  trace (someArmaFunction empty_body 2 odd_world).2 = trace odd_world /\
  invocations (someArmaFunction empty_body 2 odd_world).2
    = invocations odd_world.
Proof.
  apply (C2_unsupported_tag_throws empty_body 2 odd_world neg_desc).
  - reflexivity.
  - unfold is_int, INT_MIN, INT_MAX. simpl. lia.
  - unfold supported_tag. simpl. lia.
Defined.

(** ** The view handed to the template *)

(** C3: for a supported tag the view passed to the template has the address,
    row count and column count of the descriptor, and nothing is copied: the
    template's body runs on the very store the wrapper was entered with, and
    with the source's empty body the heap afterwards is the heap before. *)
Theorem C3_view_is_the_buffer
    (body : forall T : elem_type, Mat T -> store -> outcome unit * store)
    (h : SEXP) (w : world) (d : BigMatrix) :
  xptrs (st w) !! h = Some d ->
  supported_tag (matrix_type d) ->
  exists (T : elem_type) (v : Mat T),
    mem v = matrix d /\
    n_rows v = nrow d /\
    n_cols v = ncol d /\
    someArmaFunction body h w
      = ((body T v (st w)).1,
         mkWorld (body T v (st w)).2 (trace w ++ [Invoke T v])) /\
    heap (st (someArmaFunction empty_body h w).2) = heap (st w).
Proof.
  intros Hd Hs.
  destruct (someArmaFunction_supported body h w d Hd Hs) as (T & HT & Hrun).
  exists T, (typed_view T d).
  repeat split.
  - rewrite Hrun. apply someArmaFunction_T_run.
  - destruct (someArmaFunction_supported empty_body h w d Hd Hs)
      as (T' & _ & Hrun').
    rewrite Hrun', someArmaFunction_T_run. reflexivity.
Qed.

Lemma C3_witness :
  exists (T : elem_type) (v : Mat T),
    mem v = matrix M_desc /\
    n_rows v = nrow M_desc /\
    n_cols v = ncol M_desc /\
    someArmaFunction empty_body M_address M_world
      = ((empty_body T v (st M_world)).1,
         mkWorld (empty_body T v (st M_world)).2
                 (trace M_world ++ [Invoke T v])) /\
    heap (st (someArmaFunction empty_body M_address M_world).2)
      = heap (st M_world).
Proof.
  apply (C3_view_is_the_buffer empty_body M_address M_world M_desc).
  - reflexivity.
  - unfold supported_tag. simpl. lia.
Defined.

(** ** The message of the exception *)

(** The claim C4 as stated fails: for the tag 3 the wrapper throws the
    message of line 64, in which no 3 occurs, and the tag -1 gets the very
    same message. *)
Lemma C4_message_omits_tag :
  someArmaFunction empty_body 1 odd_world
    = (Threw (Rcpp_exception "Undefined type for provided big.matrix"),
       odd_world) /\
  matrix_type odd_desc = 3 /\
  mentions_tag "Undefined type for provided big.matrix" 3 = false /\
  (someArmaFunction empty_body 2 odd_world).1
    = (someArmaFunction empty_body 1 odd_world).1.
Proof. repeat split. Qed.

(** C4, amended: for a handle with an unsupported tag the wrapper fails at
    once, before any template call and with the world unchanged, and the
    exception carries the fixed text "Undefined type for provided
    big.matrix", the same for every unsupported tag; the tag is not shown in
    it. *)
Theorem C4_fixed_message
    (body : forall T : elem_type, Mat T -> store -> outcome unit * store)
    (h h' : SEXP) (w w' : world) (d d' : BigMatrix) :
  xptrs (st w) !! h = Some d ->
  is_int (matrix_type d) ->
  ~ supported_tag (matrix_type d) ->
  xptrs (st w') !! h' = Some d' ->
  is_int (matrix_type d') ->
  ~ supported_tag (matrix_type d') ->
  (someArmaFunction body h w).1
    = Threw (Rcpp_exception "Undefined type for provided big.matrix") /\
  (someArmaFunction body h w).2 = w /\
  (someArmaFunction body h' w').1 = (someArmaFunction body h w).1 /\
  mentions_tag "Undefined type for provided big.matrix" (matrix_type d)
    = false.
Proof.
  intros Hd Hi Hn Hd' Hi' Hn'.
  rewrite (someArmaFunction_unsupported body h w d Hd Hi Hn).
  rewrite (someArmaFunction_unsupported body h' w' d' Hd' Hi' Hn').
  repeat split. apply message_mentions_no_tag.
Qed.

Lemma C4_witness :
  (someArmaFunction empty_body 1 odd_world).1
    = Threw (Rcpp_exception "Undefined type for provided big.matrix") /\
  (someArmaFunction empty_body 1 odd_world).2 = odd_world /\
  (someArmaFunction empty_body 2 odd_world).1
    = (someArmaFunction empty_body 1 odd_world).1 /\
  mentions_tag "Undefined type for provided big.matrix"
    (matrix_type odd_desc) = false.
Proof.
  apply (C4_fixed_message empty_body 1 2 odd_world odd_world
           odd_desc neg_desc).
  - reflexivity.
  - unfold is_int, INT_MIN, INT_MAX. simpl. lia.
  - unfold supported_tag. simpl. lia.
  - reflexivity.
  - unfold is_int, INT_MIN, INT_MAX. simpl. lia.
  - unfold supported_tag. simpl. lia.
Defined.

(** ** The strict flag *)

(** C5: for a supported tag the view passed to the template has its strict
    flag false; the template takes it by const reference, so a call leaves
    behind no changed view, only the store the body produced. *)
Theorem C5_view_not_strict
    (body : forall T : elem_type, Mat T -> store -> outcome unit * store)
    (h : SEXP) (w : world) (d : BigMatrix) :
  xptrs (st w) !! h = Some d ->
  supported_tag (matrix_type d) ->
  exists (T : elem_type) (v : Mat T),
    someArmaFunction body h w = someArmaFunction_T body T v w /\
    strict v = false /\
    event_strict <$> last (trace (someArmaFunction body h w).2) = Some false.
Proof.
  intros Hd Hs.
  destruct (someArmaFunction_supported body h w d Hd Hs) as (T & HT & Hrun).
  exists T, (typed_view T d).
  repeat split; [exact Hrun |].
  rewrite Hrun, someArmaFunction_T_run. simpl.
  rewrite last_snoc. reflexivity.
Qed.

Lemma C5_witness :
  exists (T : elem_type) (v : Mat T),
    someArmaFunction empty_body M_address M_world
      = someArmaFunction_T empty_body T v M_world /\
    strict v = false /\
    event_strict <$> last (trace (someArmaFunction empty_body M_address
                                    M_world).2) = Some false.
Proof.
  apply (C5_view_not_strict empty_body M_address M_world M_desc).
  - reflexivity.
  - unfold supported_tag. simpl. lia.
Defined.

(** ** Column-major reading through the view *)

(** C6: through the view passed to the template, the element at row [r] and
    column [c] is the cell at linear offset [c * nrow + r] of the buffer; for
    the matrix of the R chunk, the buffer 1..6 seen as 2 x 3, the view reads
    3 at (0, 1) and 6 at (1, 2). *)
Theorem C6_column_major :
  (forall (body : forall T : elem_type, Mat T -> store -> outcome unit * store)
          (h : SEXP) (w : world) (d : BigMatrix) (buf : list cell),
      xptrs (st w) !! h = Some d ->
      supported_tag (matrix_type d) ->
      heap (st w) !! matrix d = Some buf ->
      exists (T : elem_type) (v : Mat T),
        someArmaFunction body h w = someArmaFunction_T body T v w /\
        forall r c : N,
          Mat_at (st w) v r c = buf !! N.to_nat (c * nrow d + r)) /\
  (exists v : Mat Tint,
      trace (someArmaFunction empty_body M_address M_world).2
        = [Invoke Tint v] /\
      heap M_store !! mem v = Some [1; 2; 3; 4; 5; 6] /\
      n_rows v = 2%N /\
      n_cols v = 3%N /\
      Mat_at M_store v 0 1 = Some 3 /\
      Mat_at M_store v 1 2 = Some 6).
Proof.
  split.
  - intros body h w d buf Hd Hs Hbuf.
    destruct (someArmaFunction_supported body h w d Hd Hs) as (T & HT & Hrun).
    exists T, (typed_view T d). split; [exact Hrun |].
    intros r c. unfold Mat_at, typed_view. simpl.
    rewrite Hbuf. reflexivity.
  - exists (typed_view Tint M_desc). repeat split.
Qed.

Lemma C6_witness :
  exists (T : elem_type) (v : Mat T),
    someArmaFunction empty_body M_address M_world
      = someArmaFunction_T empty_body T v M_world /\
    forall r c : N,
      Mat_at (st M_world) v r c
        = [1; 2; 3; 4; 5; 6] !! N.to_nat (c * nrow M_desc + r).
Proof.
  apply (proj1 C6_column_major empty_body M_address M_world M_desc).
  - reflexivity.
  - unfold supported_tag. simpl. lia.
  - reflexivity.
Defined.

(** ** Matrices without elements *)

(** C7: for a descriptor with no rows or no columns and a supported tag the
    wrapper raises nothing of its own: it builds a view without elements,
    which is addressable whatever the heap holds, and calls the template on
    it; the outcome is the body's, and with the source's empty body the call
    returns normally. *)
Theorem C7_empty_matrix
    (body : forall T : elem_type, Mat T -> store -> outcome unit * store)
    (h : SEXP) (w : world) (d : BigMatrix) :
  xptrs (st w) !! h = Some d ->
  supported_tag (matrix_type d) ->
  (nrow d = 0 \/ ncol d = 0)%N ->
  exists (T : elem_type) (v : Mat T),
    n_elem v = 0%N /\
    Mat_addressable (st w) v = true /\
    someArmaFunction body h w = someArmaFunction_T body T v w /\
    (someArmaFunction body h w).1 = (body T v (st w)).1 /\
    someArmaFunction empty_body h w
      = (Normal tt, mkWorld (st w) (trace w ++ [Invoke T v])).
Proof.
  intros Hd Hs Hz.
  destruct (someArmaFunction_supported body h w d Hd Hs) as (T & HT & Hrun).
  exists T, (typed_view T d).
  assert (Hn : n_elem (typed_view T d) = 0%N).
  { unfold n_elem, typed_view. simpl. lia. }
  repeat split.
  - exact Hn.
  - unfold Mat_addressable. rewrite Hn.
    destruct (heap (st w) !! mem (typed_view T d)).
    + apply bool_decide_eq_true. simpl. lia.
    + apply bool_decide_eq_true. reflexivity.
  - exact Hrun.
  - rewrite Hrun, someArmaFunction_T_run. reflexivity.
  - destruct (someArmaFunction_supported empty_body h w d Hd Hs)
      as (T' & HT' & Hrun').
    assert (T' = T) as -> by congruence.
    rewrite Hrun', someArmaFunction_T_run. reflexivity.
Qed.

Lemma C7_witness :
  exists (T : elem_type) (v : Mat T),
    n_elem v = 0%N /\
    Mat_addressable (st empty_world) v = true /\
    someArmaFunction empty_body 1 empty_world
      = someArmaFunction_T empty_body T v empty_world /\
    (someArmaFunction empty_body 1 empty_world).1
      = (empty_body T v (st empty_world)).1 /\
    someArmaFunction empty_body 1 empty_world
      = (Normal tt,
         mkWorld (st empty_world) (trace empty_world ++ [Invoke T v])).
Proof.
  apply (C7_empty_matrix empty_body 1 empty_world empty_desc).
  - reflexivity.
  - unfold supported_tag. simpl. lia.
  - left. reflexivity.
Defined.

(** ** Frame *)

(** C8: the wrapper has no effect of its own on the store.  For a supported
    tag the store afterwards is the one the template's body leaves when run
    on the original store, and the trace has the one call more; for an
    unsupported tag the world is unchanged; and
    with the source's empty body the store (buffers and descriptors) is
    unchanged for every handle, resolved or not. *)
Theorem C8_no_side_effects
    (body : forall T : elem_type, Mat T -> store -> outcome unit * store)
    (h : SEXP) (w : world) :
  (forall d : BigMatrix,
      xptrs (st w) !! h = Some d ->
      supported_tag (matrix_type d) ->
      exists (T : elem_type) (v : Mat T),
        (someArmaFunction body h w).2
          = mkWorld (body T v (st w)).2 (trace w ++ [Invoke T v])) /\
  (forall d : BigMatrix,
      xptrs (st w) !! h = Some d ->
      is_int (matrix_type d) ->
      ~ supported_tag (matrix_type d) ->
      (someArmaFunction body h w).2 = w) /\
  st (someArmaFunction empty_body h w).2 = st w.
Proof.
  repeat split.
  - intros d Hd Hs.
    destruct (someArmaFunction_supported body h w d Hd Hs) as (T & HT & Hrun).
    exists T, (typed_view T d).
    rewrite Hrun, someArmaFunction_T_run. reflexivity.
  - intros d Hd Hi Hn.
    now rewrite (someArmaFunction_unsupported body h w d Hd Hi Hn).
  - destruct (xptrs (st w) !! h) as [d |] eqn:Hd.
    + rewrite (someArmaFunction_resolved empty_body h w d Hd).
      destruct (tag_table _); [| reflexivity].
      rewrite someArmaFunction_T_run. reflexivity.
    + now rewrite (someArmaFunction_unresolved empty_body h w Hd).
Qed.

Lemma C8_witness :
  (exists (T : elem_type) (v : Mat T),
      (someArmaFunction empty_body M_address M_world).2
        = mkWorld (empty_body T v (st M_world)).2
                  (trace M_world ++ [Invoke T v])) /\
  (someArmaFunction empty_body 1 odd_world).2 = odd_world.
Proof.
  split.
  - apply (proj1 (C8_no_side_effects empty_body M_address M_world) M_desc).
    + reflexivity.
    + unfold supported_tag. simpl. lia.
  - apply (proj1 (proj2 (C8_no_side_effects empty_body 1 odd_world)) odd_desc).
    + reflexivity.
    + unfold is_int, INT_MIN, INT_MAX. simpl. lia.
    + unfold supported_tag. simpl. lia.
Defined.

(** ** Repeated dispatch *)

(** C9: two dispatches in a row on a handle with a supported tag, the
    descriptor being the same before the second as before the first, pass
    views with the same address, row count and column count: the trace grows
    by the same entry twice. *)
Theorem C9_dispatch_twice
    (body : forall T : elem_type, Mat T -> store -> outcome unit * store)
    (h : SEXP) (w : world) (d : BigMatrix) :
  xptrs (st w) !! h = Some d ->
  supported_tag (matrix_type d) ->
  xptrs (st (someArmaFunction body h w).2) !! h = Some d ->
  exists (T : elem_type) (v : Mat T),
    mem v = matrix d /\
    n_rows v = nrow d /\
    n_cols v = ncol d /\
    trace (someArmaFunction body h w).2 = trace w ++ [Invoke T v] /\
    trace (someArmaFunction body h (someArmaFunction body h w).2).2
      = trace w ++ [Invoke T v; Invoke T v].
Proof.
  intros Hd Hs Hd1.
  destruct (someArmaFunction_supported body h w d Hd Hs) as (T & HT & Hrun).
  destruct (someArmaFunction_supported body h _ d Hd1 Hs) as (T1 & HT1 & Hrun1).
  assert (T1 = T) as -> by congruence.
  exists T, (typed_view T d).
  assert (Htr : trace (someArmaFunction body h w).2
                = trace w ++ [Invoke T (typed_view T d)]).
  { rewrite Hrun, someArmaFunction_T_run. reflexivity. }
  repeat split.
  - exact Htr.
  - rewrite Hrun1, someArmaFunction_T_run. simpl.
    rewrite Htr, <- app_assoc. reflexivity.
Qed.

Lemma C9_witness :
  exists (T : elem_type) (v : Mat T),
    mem v = matrix M_desc /\
    n_rows v = nrow M_desc /\
    n_cols v = ncol M_desc /\
    trace (someArmaFunction empty_body M_address M_world).2
      = trace M_world ++ [Invoke T v] /\
    trace (someArmaFunction empty_body M_address
             (someArmaFunction empty_body M_address M_world).2).2
      = trace M_world ++ [Invoke T v; Invoke T v].
Proof.
  apply (C9_dispatch_twice empty_body M_address M_world M_desc).
  - reflexivity.
  - unfold supported_tag. simpl. lia.
  - reflexivity.
Defined.

(** ** The tag alone decides the branch *)

(** C10: two handles whose descriptors carry the same tag take the same
    branch, whatever the addresses, shapes, buffers and earlier calls: either
    both runs are one call of the template at the same element type, or both
    throw the same exception and leave their worlds alone.  If the
    descriptors are equal the views are equal too, and so is the outcome
    whenever the body is run on equal stores. *)
Theorem C10_branch_depends_on_tag_only
    (body : forall T : elem_type, Mat T -> store -> outcome unit * store)
    (h1 h2 : SEXP) (w1 w2 : world) (d1 d2 : BigMatrix) :
  xptrs (st w1) !! h1 = Some d1 ->
  xptrs (st w2) !! h2 = Some d2 ->
  matrix_type d1 = matrix_type d2 ->
  (exists (T : elem_type) (v1 v2 : Mat T),
      someArmaFunction body h1 w1 = someArmaFunction_T body T v1 w1 /\
      someArmaFunction body h2 w2 = someArmaFunction_T body T v2 w2 /\
      (d1 = d2 -> v1 = v2) /\
      (d1 = d2 -> st w1 = st w2 ->
       (someArmaFunction body h1 w1).1 = (someArmaFunction body h2 w2).1)) \/
  (exists e : exn,
      someArmaFunction body h1 w1 = (Threw e, w1) /\
      someArmaFunction body h2 w2 = (Threw e, w2)).
Proof.
  intros Hd1 Hd2 Ht.
  rewrite (someArmaFunction_resolved body h1 w1 d1 Hd1).
  rewrite (someArmaFunction_resolved body h2 w2 d2 Hd2).
  rewrite <- Ht.
  destruct (tag_table (to_unsigned_int (matrix_type d1))) as [T |].
  - left. exists T, (typed_view T d1), (typed_view T d2).
    repeat split.
    + now intros ->.
    + intros -> Hst. rewrite !someArmaFunction_T_run. simpl.
      now rewrite Hst.
  - right. eexists. split; reflexivity.
Qed.

Lemma C10_witness :
  (exists (T : elem_type) (v1 v2 : Mat T),
      someArmaFunction empty_body M_address M_world
        = someArmaFunction_T empty_body T v1 M_world /\
      someArmaFunction empty_body 5 wide_world
        = someArmaFunction_T empty_body T v2 wide_world /\
      (M_desc = wide_desc -> v1 = v2) /\
      (M_desc = wide_desc -> st M_world = st wide_world ->
       (someArmaFunction empty_body M_address M_world).1
         = (someArmaFunction empty_body 5 wide_world).1)) \/
  (exists e : exn,
      someArmaFunction empty_body M_address M_world = (Threw e, M_world) /\
      someArmaFunction empty_body 5 wide_world = (Threw e, wide_world)).
Proof.
  apply (C10_branch_depends_on_tag_only empty_body M_address 5
           M_world wide_world M_desc wide_desc).
  - reflexivity.
  - reflexivity.
  - reflexivity.
Defined.

(** ** Further properties of the wrapper *)

(** X1: whatever the handle, the tag and the template's body, one run of the
    wrapper calls the template at most once and never touches the record of
    earlier calls: the trace afterwards is the old trace, or the old trace
    with one entry appended. *)
Theorem X1_at_most_one_call
    (body : forall T : elem_type, Mat T -> store -> outcome unit * store)
    (h : SEXP) (w : world) :
  (trace (someArmaFunction body h w).2 = trace w \/
   exists (T : elem_type) (v : Mat T),
     trace (someArmaFunction body h w).2 = trace w ++ [Invoke T v]) /\
  (invocations w <= invocations (someArmaFunction body h w).2
     <= S (invocations w))%nat.
Proof.
  assert (Hcases :
    trace (someArmaFunction body h w).2 = trace w \/
    exists (T : elem_type) (v : Mat T),
      trace (someArmaFunction body h w).2 = trace w ++ [Invoke T v]).
  { destruct (xptrs (st w) !! h) as [d |] eqn:Hd.
    - rewrite (someArmaFunction_resolved body h w d Hd).
      destruct (tag_table _) as [T |]; [| now left].
      right. exists T, (typed_view T d).
      rewrite someArmaFunction_T_run. reflexivity.
    - rewrite (someArmaFunction_unresolved body h w Hd). now left. }
  split; [exact Hcases |].
  unfold invocations.
  destruct Hcases as [-> | (T & v & ->)]; [lia |].
  rewrite length_app. simpl. lia.
Qed.

(** X2: the wrapper never returns normally without having done its work.  If
    a run returns normally, then the handle resolved to a descriptor, the
    unsigned tag read at line 46 is 1, 2, 4 or 8, the template was called
    exactly once at the type of that tag on the view of that descriptor, and
    the template's body itself returned normally. *)
Theorem X2_normal_return_means_one_call
    (body : forall T : elem_type, Mat T -> store -> outcome unit * store)
    (h : SEXP) (w : world) :
  (someArmaFunction body h w).1 = Normal tt ->
  exists (d : BigMatrix) (T : elem_type),
    xptrs (st w) !! h = Some d /\
    supported_tag (to_unsigned_int (matrix_type d)) /\
    tag_table (to_unsigned_int (matrix_type d)) = Some T /\
    (body T (typed_view T d) (st w)).1 = Normal tt /\
    trace (someArmaFunction body h w).2
      = trace w ++ [Invoke T (typed_view T d)].
Proof.
  destruct (xptrs (st w) !! h) as [d |] eqn:Hd.
  - rewrite (someArmaFunction_resolved body h w d Hd).
    destruct (tag_table (to_unsigned_int (matrix_type d))) as [T |] eqn:HT.
    + rewrite someArmaFunction_T_run. simpl. intros Hn.
      exists d, T. repeat split; try assumption.
      apply tag_table_supported. rewrite HT. eauto.
    + simpl. discriminate.
  - rewrite (someArmaFunction_unresolved body h w Hd). simpl. discriminate.
Qed.

Lemma X2_witness :
  exists (d : BigMatrix) (T : elem_type),
    xptrs (st M_world) !! M_address = Some d /\
    supported_tag (to_unsigned_int (matrix_type d)) /\
    tag_table (to_unsigned_int (matrix_type d)) = Some T /\
    (empty_body T (typed_view T d) (st M_world)).1 = Normal tt /\
    trace (someArmaFunction empty_body M_address M_world).2
      = trace M_world ++ [Invoke T (typed_view T d)].
Proof.
  apply (X2_normal_return_means_one_call empty_body M_address M_world).
  reflexivity.
Defined.

(** X3: the wrapper catches nothing.  If, for a supported tag, the template's
    body throws on the view it is given, the wrapper ends with that very
    exception, the store is the one the body left, and the call stays
    recorded. *)
Theorem X3_body_exception_propagates
    (body : forall T : elem_type, Mat T -> store -> outcome unit * store)
    (h : SEXP) (w : world) (d : BigMatrix) (T : elem_type)
    (e : exn) (s' : store) :
  xptrs (st w) !! h = Some d ->
  supported_tag (matrix_type d) ->
  tag_table (matrix_type d) = Some T ->
  body T (typed_view T d) (st w) = (Threw e, s') ->
  someArmaFunction body h w
    = (Threw e, mkWorld s' (trace w ++ [Invoke T (typed_view T d)])).
Proof.
  intros Hd Hs HT Hb.
  destruct (someArmaFunction_supported body h w d Hd Hs) as (T' & HT' & Hrun).
  assert (T' = T) as -> by congruence.
  rewrite Hrun, someArmaFunction_T_run, Hb. reflexivity.
Qed.

Lemma X3_witness :
  someArmaFunction throwing_body M_address M_world
    = (Threw (Rcpp_exception "matrix is singular"),
       mkWorld (st M_world)
               (trace M_world ++ [Invoke Tint (typed_view Tint M_desc)])).
Proof.
  apply (X3_body_exception_propagates throwing_body M_address M_world
           M_desc Tint (Rcpp_exception "matrix is singular") (st M_world)).
  - reflexivity.
  - unfold supported_tag. simpl. lia.
  - reflexivity.
  - reflexivity.
Defined.

(** With the source's empty template the wrapper leaves the store alone, for
    every handle. *)
Lemma someArmaFunction_empty_body_store (h : SEXP) (w : world) :
  st (someArmaFunction empty_body h w).2 = st w.
Proof.
  destruct (xptrs (st w) !! h) as [d |] eqn:Hd.
  - rewrite (someArmaFunction_resolved empty_body h w d Hd).
    destruct (tag_table _); [| reflexivity].
    rewrite someArmaFunction_T_run. reflexivity.
  - now rewrite (someArmaFunction_unresolved empty_body h w Hd).
Qed.

(** X4: any number of calls in a row.  For a supported tag and a template
    body that leaves the descriptor behind the handle in place, [n] calls of
    the wrapper record [n] times the same entry, and the descriptor is still
    there; with the source's empty template the store after the [n] calls is
    the store before them. *)
Theorem X4_repeated_dispatch
    (body : forall T : elem_type, Mat T -> store -> outcome unit * store)
    (h : SEXP) (w : world) (d : BigMatrix) (T : elem_type) (n : nat) :
  xptrs (st w) !! h = Some d ->
  supported_tag (matrix_type d) ->
  tag_table (matrix_type d) = Some T ->
  (forall (T' : elem_type) (v : Mat T') (s : store),
      xptrs s !! h = Some d -> xptrs (body T' v s).2 !! h = Some d) ->
  trace (dispatch_n body h n w)
    = trace w ++ replicate n (Invoke T (typed_view T d)) /\
  xptrs (st (dispatch_n body h n w)) !! h = Some d /\
  st (dispatch_n empty_body h n w) = st w.
Proof.
  intros Hd Hs HT Hkeep.
  induction n as [| n (IHtr & IHd & IHst)].
  - simpl. rewrite app_nil_r. auto.
  - unfold dispatch_n in *. simpl.
    set (wn := Nat.iter n (fun w' => (someArmaFunction body h w').2) w) in *.
    destruct (someArmaFunction_supported body h wn d IHd Hs)
      as (T' & HT' & Hrun).
    assert (T' = T) as -> by congruence.
    rewrite Hrun, someArmaFunction_T_run. simpl.
    repeat split.
    + rewrite IHtr, <- app_assoc, <- replicate_S_end. reflexivity.
    + apply Hkeep. exact IHd.
    + rewrite someArmaFunction_empty_body_store. exact IHst.
Qed.

Lemma X4_witness :
  trace (dispatch_n empty_body M_address 3 M_world)
    = trace M_world ++ replicate 3 (Invoke Tint (typed_view Tint M_desc)) /\
  xptrs (st (dispatch_n empty_body M_address 3 M_world)) !! M_address
    = Some M_desc /\
  st (dispatch_n empty_body M_address 3 M_world) = st M_world.
Proof.
  apply (X4_repeated_dispatch empty_body M_address M_world M_desc Tint 3).
  - reflexivity.
  - unfold supported_tag. simpl. lia.
  - reflexivity.
  - intros T' v s Hs. exact Hs.
Defined.

(** X5: the wrapper checks the tag and nothing else.  If the descriptor has
    a supported tag but declares more elements than the buffer at its address
    holds, the wrapper still calls the template, on a view of the declared
    shape; that view is not addressable, and its last element lies outside
    the buffer. *)
Theorem X5_shape_is_not_validated
    (h : SEXP) (w : world) (d : BigMatrix) :
  xptrs (st w) !! h = Some d ->
  supported_tag (matrix_type d) ->
  (buffer_cells (st w) (matrix d) < N.to_nat (nrow d * ncol d))%nat ->
  exists (T : elem_type) (v : Mat T),
    someArmaFunction empty_body h w
      = (Normal tt, mkWorld (st w) (trace w ++ [Invoke T v])) /\
    mem v = matrix d /\
    n_rows v = nrow d /\
    n_cols v = ncol d /\
    Mat_addressable (st w) v = false /\
    Mat_at (st w) v (nrow d - 1) (ncol d - 1) = None.
Proof.
  intros Hd Hs Hshort.
  destruct (someArmaFunction_supported empty_body h w d Hd Hs)
    as (T & HT & Hrun).
  exists T, (typed_view T d).
  repeat split.
  - rewrite Hrun, someArmaFunction_T_run. reflexivity.
  - unfold Mat_addressable, buffer_cells, n_elem in *. simpl.
    destruct (heap (st w) !! matrix d) as [buf |]; simpl in Hshort.
    + apply bool_decide_eq_false. lia.
    + apply bool_decide_eq_false. lia.
  - unfold Mat_at, buffer_cells in *. simpl.
    destruct (heap (st w) !! matrix d) as [buf |]; simpl in *;
      [| reflexivity].
    apply lookup_ge_None. nia.
Qed.

Lemma X5_witness :
  exists (T : elem_type) (v : Mat T),
    someArmaFunction empty_body 1 short_world
      = (Normal tt,
         mkWorld (st short_world) (trace short_world ++ [Invoke T v])) /\
    mem v = matrix short_desc /\
    n_rows v = nrow short_desc /\
    n_cols v = ncol short_desc /\
    Mat_addressable (st short_world) v = false /\
    Mat_at (st short_world) v (nrow short_desc - 1) (ncol short_desc - 1)
      = None.
Proof.
  apply (X5_shape_is_not_validated 1 short_world short_desc).
  - reflexivity.
  - unfold supported_tag. simpl. lia.
  - vm_compute. lia.
Defined.

(** X6: what the owner writes into the buffer is what the template sees.  If
    the cell at offset [c * nrow + r] of the buffer is overwritten with [x]
    before the call, then for a supported tag the view passed to the template
    reads [x] at (r, c), and every position with another offset reads what it
    read before the write. *)
Theorem X6_write_then_view
    (body : forall T : elem_type, Mat T -> store -> outcome unit * store)
    (h : SEXP) (w : world) (d : BigMatrix) (buf : list cell)
    (r c : N) (x : cell) :
  xptrs (st w) !! h = Some d ->
  supported_tag (matrix_type d) ->
  heap (st w) !! matrix d = Some buf ->
  (N.to_nat (c * nrow d + r) < length buf)%nat ->
  let i := N.to_nat (c * nrow d + r) in
  let w' := mkWorld (poke (st w) (matrix d) i x) (trace w) in
  exists (T : elem_type) (v : Mat T),
    someArmaFunction body h w' = someArmaFunction_T body T v w' /\
    Mat_at (st w') v r c = Some x /\
    forall r' c' : N,
      N.to_nat (c' * nrow d + r') <> i ->
      Mat_at (st w') v r' c' = Mat_at (st w) v r' c'.
Proof.
  intros Hd Hs Hbuf Hi i w'.
  assert (Hd' : xptrs (st w') !! h = Some d) by exact Hd.
  destruct (someArmaFunction_supported body h w' d Hd' Hs)
    as (T & HT & Hrun).
  exists T, (typed_view T d).
  split; [exact Hrun |].
  unfold Mat_at, typed_view, w', poke. simpl.
  rewrite lookup_alter_eq, Hbuf. simpl.
  split.
  - apply list_lookup_insert_eq. exact Hi.
  - intros r' c' Hne. apply list_lookup_insert_ne. congruence.
Qed.

Lemma X6_witness :
  exists (T : elem_type) (v : Mat T),
    someArmaFunction empty_body M_address
      (mkWorld (poke (st M_world) (matrix M_desc) 5 42) (trace M_world))
      = someArmaFunction_T empty_body T v
          (mkWorld (poke (st M_world) (matrix M_desc) 5 42) (trace M_world)) /\
    Mat_at (poke (st M_world) (matrix M_desc) 5 42) v 1 2 = Some 42 /\
    forall r' c' : N,
      N.to_nat (c' * nrow M_desc + r') <> 5%nat ->
      Mat_at (poke (st M_world) (matrix M_desc) 5 42) v r' c'
        = Mat_at (st M_world) v r' c'.
Proof.
  apply (X6_write_then_view empty_body M_address M_world M_desc
           [1; 2; 3; 4; 5; 6] 1 2 42).
  - reflexivity.
  - unfold supported_tag. simpl. lia.
  - reflexivity.
  - simpl. lia.
Defined.

(** X7: retrying does not help.  For a tag in the range of [int] that is none
    of 1, 2, 4, 8, any number of calls of the wrapper leaves the world as it
    was: no call of the template is ever recorded, and the next call throws
    the exception of line 64 again. *)
Theorem X7_retry_never_succeeds
    (body : forall T : elem_type, Mat T -> store -> outcome unit * store)
    (h : SEXP) (w : world) (d : BigMatrix) (n : nat) :
  xptrs (st w) !! h = Some d ->
  is_int (matrix_type d) ->
  ~ supported_tag (matrix_type d) ->
  dispatch_n body h n w = w /\
  someArmaFunction body h (dispatch_n body h n w)
    = (Threw (Rcpp_exception "Undefined type for provided big.matrix"), w).
Proof.
  intros Hd Hi Hn.
  assert (Hfix : dispatch_n body h n w = w).
  { induction n as [| n IH]; [reflexivity |].
    unfold dispatch_n in *. simpl. rewrite IH.
    now rewrite (someArmaFunction_unsupported body h w d Hd Hi Hn). }
  split; [exact Hfix |].
  rewrite Hfix. exact (someArmaFunction_unsupported body h w d Hd Hi Hn).
Qed.

Lemma X7_witness :
  dispatch_n empty_body 2 4 odd_world = odd_world /\
  someArmaFunction empty_body 2 (dispatch_n empty_body 2 4 odd_world)
    = (Threw (Rcpp_exception "Undefined type for provided big.matrix"),
       odd_world).
Proof.
  apply (X7_retry_never_succeeds empty_body 2 odd_world neg_desc 4).
  - reflexivity.
  - unfold is_int, INT_MIN, INT_MAX. simpl. lia.
  - unfold supported_tag. simpl. lia.
Defined.
